(** * OlegDB core: a shallow embedding of src/oleg.c and src/dump.c

    The in-memory index (a chained hash table with grow-by-doubling), the
    append-only-log hooks of the mutations, and the dump writer and reader.

    Modelling conventions.
    - Byte buffers are [list byte].  A C string buffer is read as NUL past
      the end of the list; well-formed inputs never reach that point.
    - A collision chain (a singly linked [ol_bucket] list through [next])
      is a [list ol_bucket]; a pointer to a record is its position in the
      chain.  A freed record that is still linked stays in the list: it is
      what a walk of the chain reaches.
    - Allocation never fails ([malloc], [calloc], [realloc] return memory).
    - The hash of a key is the Section variable [hash_fn] (MurmurHash3
      x86_32 with [DEVILS_SEED] in the program, see [MurmurHash3_x86_32]);
      every theorem about the index holds for any hash function.
    - [sizeof(ol_bucket * )] is 8 (a 64-bit host). *)

From Stdlib Require Import ZArith List Lia Bool Permutation.
From Stdlib Require Import Strings.Byte Strings.String.
Import ListNotations.

Open Scope Z_scope.

(* ------------------------------------------------------------------ *)
(** ** Bytes and C strings *)

Definition byte_z (b : byte) : Z := Z.of_nat (Byte.to_nat b).

Definition byte_of_z (z : Z) : byte :=
  match Byte.of_nat (Z.to_nat (z mod 256)) with Some b => b | None => x00 end.

Definition bytes_of_string (s : string) : list byte := list_byte_of_string s.

Fixpoint bytes_eqb (a b : list byte) : bool :=
  match a, b with
  | [], [] => true
  | x :: a', y :: b' => Byte.eqb x y && bytes_eqb a' b'
  | _, _ => false
  end.

(** [strncpy(dst, src, n)]: the [n] bytes written to [dst]; [src] is
    copied up to its first NUL, the rest is NUL padding. *)
Fixpoint strncpy (src : list byte) (n : nat) : list byte :=
  match n with
  | O => []
  | S n' =>
      match src with
      | [] => x00 :: strncpy [] n'
      | c :: src' =>
          if Byte.eqb c x00 then x00 :: strncpy [] n'
          else c :: strncpy src' n'
      end
  end.

(** [strnlen(s, n)] *)
Fixpoint strnlen (s : list byte) (n : nat) : nat :=
  match n with
  | O => O
  | S n' =>
      match s with
      | [] => O
      | c :: s' => if Byte.eqb c x00 then O else S (strnlen s' n')
      end
  end.

(** [strncmp(a, b, n)] (unsigned char difference). *)
Fixpoint strncmp (a b : list byte) (n : nat) : Z :=
  match n with
  | O => 0
  | S n' =>
      let ca := hd x00 a in
      let cb := hd x00 b in
      if Byte.eqb ca cb then
        (if Byte.eqb ca x00 then 0 else strncmp (tl a) (tl b) n')
      else byte_z ca - byte_z cb
  end.

(** [memcpy(dst, src, n)]: the [n] bytes copied. *)
Definition memcpy (src : list byte) (n : nat) : list byte := firstn n src.

(** Little-endian encoding of a [w]-byte unsigned integer (wrapping). *)
Fixpoint le_bytes (w : nat) (z : Z) : list byte :=
  match w with
  | O => []
  | S w' => byte_of_z z :: le_bytes w' (Z.shiftr z 8)
  end.

Fixpoint le_value (bs : list byte) : Z :=
  match bs with
  | [] => 0
  | b :: bs' => byte_z b + 256 * le_value bs'
  end.

(* ------------------------------------------------------------------ *)
(** ** MurmurHash3_x86_32 (src/murmur3.c is not among the sources) *)

Definition mask32 (x : Z) : Z := Z.land x (Z.ones 32).

Definition rotl32 (x : Z) (r : Z) : Z :=
  mask32 (Z.lor (Z.shiftl x r) (Z.shiftr x (32 - r))).

Definition murmur_c1 : Z := 3432918353.  (* 0xcc9e2d51 *)
Definition murmur_c2 : Z := 461845907.   (* 0x1b873593 *)

Definition murmur_scramble (k : Z) : Z :=
  mask32 (rotl32 (mask32 (k * murmur_c1)) 15 * murmur_c2).

Definition fmix32 (h : Z) : Z :=
  let h := Z.lxor h (Z.shiftr h 16) in
  let h := mask32 (h * 2246822507) in  (* 0x85ebca6b *)
  let h := Z.lxor h (Z.shiftr h 13) in
  let h := mask32 (h * 3266489909) in  (* 0xc2b2ae35 *)
  Z.lxor h (Z.shiftr h 16).

Fixpoint murmur_blocks (h : Z) (data : list byte) : Z * list byte :=
  match data with
  | b0 :: b1 :: b2 :: b3 :: rest =>
      let k := le_value [b0; b1; b2; b3] in
      let h := Z.lxor h (murmur_scramble k) in
      let h := mask32 (rotl32 h 13 * 5 + 3864292196) in  (* 0xe6546b64 *)
      murmur_blocks h rest
  | tail => (h, tail)
  end.

Definition murmur_tail (h : Z) (tail : list byte) : Z :=
  match tail with
  | [] => h
  | _ => Z.lxor h (murmur_scramble (le_value tail))
  end.

(** Modelled from the spec: [MurmurHash3_x86_32] of src/murmur3.c (the
    spec's reference hasher, "MurmurHash3 x86 32-bit"), on the first
    [len] bytes of [data]. *)
Definition MurmurHash3_x86_32 (data : list byte) (seed : Z) : Z :=
  let '(h, tail) := murmur_blocks (mask32 seed) data in
  let h := murmur_tail h tail in
  fmix32 (Z.lxor h (Z.of_nat (List.length data))).

(** Modelled from the spec: [DEVILS_SEED] of oleg.h (not among the
    sources), the fixed seed of the persisted format. *)
Definition DEVILS_SEED : Z := 666.

Definition ol_hash (data : list byte) : Z := MurmurHash3_x86_32 data DEVILS_SEED.

(* ------------------------------------------------------------------ *)
(** ** Records and the database *)

(** [db->hashes[i] = x] for an index in range (out of range: no change,
    the program never indexes out of range). *)
Fixpoint list_set {A : Type} (l : list A) (i : nat) (x : A) : list A :=
  match l, i with
  | [], _ => []
  | _ :: l', O => x :: l'
  | y :: l', S i' => y :: list_set l' i' x
  end.

Definition KEY_SIZE : nat := 250.

(** [struct ol_bucket]; [next] is the chain the record lives in. *)
Record ol_bucket := mk_bucket {
  b_key : list byte;         (* char key[KEY_SIZE] *)
  b_klen : nat;              (* klen *)
  data_ptr : list byte;
  data_size : nat;
  content_type : list byte;  (* ctype_size bytes, then the NUL *)
  ctype_size : nat;
  b_hash : Z                 (* hash *)
}.

Inductive ol_state := OL_S_STARTUP | OL_S_AOKAY.

(** One command record handed to [ol_aol_write_cmd]. *)
Record aol_cmd := mk_cmd { cmd_name : string; cmd_bucket : ol_bucket }.

(** [struct ol_database]; [aol_log] is the sequence of commands written to
    the AOL file. *)
Record ol_database := mk_db {
  hashes : list (list ol_bucket);
  cur_ht_size : nat;
  rcrd_cnt : Z;
  key_collisions : Z;
  feature_set : Z;
  state : ol_state;
  dump_file : string;
  aol_log : list aol_cmd
}.

Definition set_hashes (db : ol_database) (h : list (list ol_bucket)) : ol_database :=
  mk_db h db.(cur_ht_size) db.(rcrd_cnt) db.(key_collisions) db.(feature_set)
        db.(state) db.(dump_file) db.(aol_log).
Definition set_cur_ht_size (db : ol_database) (n : nat) : ol_database :=
  mk_db db.(hashes) n db.(rcrd_cnt) db.(key_collisions) db.(feature_set)
        db.(state) db.(dump_file) db.(aol_log).
Definition set_rcrd_cnt (db : ol_database) (n : Z) : ol_database :=
  mk_db db.(hashes) db.(cur_ht_size) n db.(key_collisions) db.(feature_set)
        db.(state) db.(dump_file) db.(aol_log).
Definition set_key_collisions (db : ol_database) (n : Z) : ol_database :=
  mk_db db.(hashes) db.(cur_ht_size) db.(rcrd_cnt) n db.(feature_set)
        db.(state) db.(dump_file) db.(aol_log).
Definition set_aol_log (db : ol_database) (l : list aol_cmd) : ol_database :=
  mk_db db.(hashes) db.(cur_ht_size) db.(rcrd_cnt) db.(key_collisions)
        db.(feature_set) db.(state) db.(dump_file) l.

(** Modelled from the spec: [OL_F_APPENDONLY] of oleg.h (not among the
    sources), the only feature flag, bit 0 of the feature set. *)
Definition OL_F_APPENDONLY : Z := 1.

Definition _ol_is_enabled (feature : Z) (feature_set : Z) : bool :=
  negb (Z.land feature_set feature =? 0).

(** Modelled from the spec: [ol_aol_write_cmd] of aol.c (not among the
    sources) appends one command record to the AOL. *)
Definition ol_aol_write_cmd (db : ol_database) (cmd : string) (bucket : ol_bucket)
  : ol_database :=
  set_aol_log db (db.(aol_log) ++ [mk_cmd cmd bucket]).

(** The guard written before every [ol_aol_write_cmd] call. *)
Definition aol_enabled (db : ol_database) : bool :=
  _ol_is_enabled OL_F_APPENDONLY db.(feature_set) &&
  match db.(state) with OL_S_STARTUP => false | OL_S_AOKAY => true end.

Definition ol_ht_bucket_max (ht_size : nat) : nat := Nat.div ht_size 8.

Definition _ol_calc_idx (ht_size : nat) (hash : Z) : nat :=
  Z.to_nat (Z.land hash (Z.of_nat (ol_ht_bucket_max ht_size) - 1)).

(** [_ol_trunc]: the [real_key_len + 1] bytes of [_key]. *)
Definition _ol_trunc (key : list byte) (klen : nat) : list byte :=
  let real_key_len := if (KEY_SIZE <? klen)%nat then KEY_SIZE else klen in
  strncpy key real_key_len ++ [x00].

Definition default_ct : list byte := bytes_of_string "application/octet-stream".

(** All chains of the table, in bucket-array order: the records reachable
    by walking every chain. *)
Definition reachable (db : ol_database) : list ol_bucket :=
  List.concat (firstn (ol_ht_bucket_max db.(cur_ht_size)) db.(hashes)).

Section Index.

(** The hasher, [MurmurHash3_x86_32(_key, _klen, DEVILS_SEED, &hash)]. *)
Variable hash_fn : list byte -> Z.

Definition key_hash (_key : list byte) (_klen : nat) : Z := hash_fn (firstn _klen _key).

(** The walk of [_ol_get_bucket] over one chain: the first record whose key
    compares equal over [max(tmp_bucket->klen, klen)] bytes, with its
    position in the chain. *)
Fixpoint find_bucket (key : list byte) (klen : nat) (pos : nat) (chain : list ol_bucket)
  : option (nat * ol_bucket) :=
  match chain with
  | [] => None
  | tmp_bucket :: rest =>
      let larger_key :=
        if (klen <? tmp_bucket.(b_klen))%nat then tmp_bucket.(b_klen) else klen in
      if strncmp tmp_bucket.(b_key) key larger_key =? 0 then Some (pos, tmp_bucket)
      else find_bucket key klen (S pos) rest
  end.

Definition _ol_get_bucket (db : ol_database) (hash : Z) (key : list byte) (klen : nat)
  : option (nat * ol_bucket) :=
  let index := _ol_calc_idx db.(cur_ht_size) hash in
  find_bucket key klen 0 (nth index db.(hashes) []).

Definition _ol_set_bucket (db : ol_database) (bucket : ol_bucket) : Z * ol_database :=
  let index := _ol_calc_idx db.(cur_ht_size) bucket.(b_hash) in
  let db1 :=
    match nth index db.(hashes) [] with
    | [] => set_hashes db (list_set db.(hashes) index [bucket])
    | chain =>
        (* key_collisions++; the last bucket of the slot links to [bucket] *)
        set_hashes (set_key_collisions db (db.(key_collisions) + 1))
                   (list_set db.(hashes) index (chain ++ [bucket]))
    end in
  (0, set_rcrd_cnt db1 (db1.(rcrd_cnt) + 1)).

(** [_ol_rehash_insert_bucket]: [bucket] is the head of an old chain and
    keeps its [next] link, so the whole chain follows it. *)
Definition _ol_rehash_insert_bucket (tmp_hashes : list (list ol_bucket)) (to_alloc : nat)
    (bucket : list ol_bucket) : list (list ol_bucket) :=
  match bucket with
  | [] => tmp_hashes
  | head :: _ =>
      let new_index := _ol_calc_idx to_alloc head.(b_hash) in
      match nth new_index tmp_hashes [] with
      | [] => list_set tmp_hashes new_index bucket
      | slot => list_set tmp_hashes new_index (slot ++ bucket)
      end
  end.

(** One iteration of the loop of [_ol_grow_and_rehash_db]. *)
Definition rehash_slot (hashes : list (list ol_bucket)) (to_alloc : nat)
    (tmp_hashes : list (list ol_bucket)) (i : nat) : list (list ol_bucket) :=
  match nth i hashes [] with
  | [] => tmp_hashes
  | bucket => _ol_rehash_insert_bucket tmp_hashes to_alloc bucket
  end.

Definition _ol_grow_and_rehash_db (db : ol_database) : Z * ol_database :=
  let to_alloc := (db.(cur_ht_size) * 2)%nat in
  let tmp_hashes := repeat [] (ol_ht_bucket_max to_alloc) in
  let iterations := ol_ht_bucket_max db.(cur_ht_size) in
  let tmp_hashes := fold_left (rehash_slot db.(hashes) to_alloc) (seq 0 iterations) tmp_hashes in
  (0, set_cur_ht_size (set_hashes db tmp_hashes) to_alloc).

(** [ol_unjar_ds]: the value and [*dsize]. *)
Definition ol_unjar_ds (db : ol_database) (key : list byte) (klen : nat)
  : option (list byte * nat) :=
  let _key := _ol_trunc key klen in
  let _klen := strnlen _key KEY_SIZE in
  let hash := key_hash _key _klen in
  match _ol_get_bucket db hash _key _klen with
  | Some (_, bucket) => Some (bucket.(data_ptr), bucket.(data_size))
  | None => None
  end.

Definition ol_unjar (db : ol_database) (key : list byte) (klen : nat) : option (list byte) :=
  option_map fst (ol_unjar_ds db key klen).

(** Replace the record at position [pos] of chain [index]. *)
Definition set_bucket_at (db : ol_database) (index pos : nat) (b : ol_bucket) : ol_database :=
  set_hashes db (list_set db.(hashes) index (list_set (nth index db.(hashes) []) pos b)).

Definition _ol_jar (db : ol_database) (key : list byte) (klen : nat) (value : list byte)
    (vsize : nat) (ct : list byte) (ctsize : nat) : Z * ol_database :=
  let _key := _ol_trunc key klen in
  let _klen := strnlen _key KEY_SIZE in
  let hash := key_hash _key _klen in
  match _ol_get_bucket db hash _key _klen with
  | Some (pos, bucket) =>
      (* existing entry: realloc + memcpy the value and the content-type *)
      let data := memcpy value vsize in
      let ct_real := memcpy ct ctsize ++ [x00] in
      let bucket' := mk_bucket bucket.(b_key) _klen data vsize ct_real ctsize bucket.(b_hash) in
      let db1 := set_bucket_at db (_ol_calc_idx db.(cur_ht_size) hash) pos bucket' in
      let db2 := if aol_enabled db1 then ol_aol_write_cmd db1 "JAR" bucket' else db1 in
      (0, db2)
  | None =>
      let new_bucket :=
        mk_bucket (strncpy _key KEY_SIZE) _klen (memcpy value vsize) vsize
                  (strncpy ct ctsize ++ [x00]) ctsize hash in
      let bucket_max := ol_ht_bucket_max db.(cur_ht_size) in
      let '(ret, db1) :=
        if (0 <? db.(rcrd_cnt)) && (db.(rcrd_cnt) =? Z.of_nat bucket_max)
        then _ol_grow_and_rehash_db db else (0, db) in
      if 0 <? ret then (4, db1)
      else
        let '(_, db2) := _ol_set_bucket db1 new_bucket in
        let db3 := if aol_enabled db2 then ol_aol_write_cmd db2 "JAR" new_bucket else db2 in
        (0, db3)
  end.

Definition ol_jar (db : ol_database) (key : list byte) (klen : nat) (value : list byte)
    (vsize : nat) : Z * ol_database :=
  _ol_jar db key klen value vsize default_ct 24.

Definition ol_jar_ct (db : ol_database) (key : list byte) (klen : nat) (value : list byte)
    (vsize : nat) (ct : list byte) (ctsize : nat) : Z * ol_database :=
  _ol_jar db key klen value vsize ct ctsize.

(** The mid-chain walk of [ol_scoop], which compares with the caller's
    [key] and [klen]: the new tail of the chain after the head when a
    record matches.  When the matched record is the last one
    ([bucket->next == NULL]), [last->next] is not rewritten and still
    points at it. *)
Fixpoint scoop_walk (key : list byte) (klen : nat) (chain : list ol_bucket)
  : option (list ol_bucket) :=
  match chain with
  | [] => None
  | bucket :: rest =>
      if strncmp bucket.(b_key) key klen =? 0 then
        Some (match rest with [] => chain | _ => rest end)
      else option_map (cons bucket) (scoop_walk key klen rest)
  end.

Definition ol_scoop (db : ol_database) (key : list byte) (klen : nat) : Z * ol_database :=
  let _key := _ol_trunc key klen in
  let _klen := strnlen _key KEY_SIZE in
  let hash := key_hash _key _klen in
  (* [index < 0] cannot hold: the index is a mask of the hash *)
  let index := _ol_calc_idx db.(cur_ht_size) hash in
  match nth index db.(hashes) [] with
  | [] => (2, db)
  | bucket :: rest =>
      if strncmp bucket.(b_key) _key _klen =? 0 then
        let db1 := set_hashes db (list_set db.(hashes) index rest) in
        let db2 := if aol_enabled db1 then ol_aol_write_cmd db1 "SCOOP" bucket else db1 in
        (0, set_rcrd_cnt db2 (db2.(rcrd_cnt) - 1))
      else
        match scoop_walk key klen rest with
        | Some rest' =>
            let db1 := set_hashes db (list_set db.(hashes) index (bucket :: rest')) in
            (0, set_rcrd_cnt db1 (db1.(rcrd_cnt) - 1))
        | None => (2, db)
        end
  end.

Definition ol_content_type (db : ol_database) (key : list byte) (klen : nat)
  : option (list byte) :=
  let _key := _ol_trunc key klen in
  let _klen := strnlen _key KEY_SIZE in
  let hash := key_hash _key _klen in
  match _ol_get_bucket db hash _key _klen with
  | Some (_, bucket) => Some bucket.(content_type)
  | None => None
  end.

End Index.

(** [ol_open] after an empty AOL replay: [ht_size] bytes of NULL slot
    heads ([HASH_MALLOC] of oleg.h, not among the sources, is a power of
    two), [state = OL_S_AOKAY]. *)
Definition ol_open_empty (ht_size : nat) (features : Z) (dump : string) : ol_database :=
  mk_db (repeat [] (ol_ht_bucket_max ht_size)) ht_size 0 0 features OL_S_AOKAY dump [].

(* ------------------------------------------------------------------ *)
(** ** Files: the dump writer and reader (src/dump.c) *)

(** The file system and the outcome of each fallible call: every [fopen],
    [fwrite] and [rename] takes the next boolean of [faults] ([true]:
    the call succeeds; an exhausted list succeeds).  A failing [fwrite]
    writes nothing. *)
Record io_state := mk_io {
  files : string -> option (list byte);
  faults : list bool
}.

Definition io_step (s : io_state) : bool * io_state :=
  match s.(faults) with
  | [] => (true, s)
  | ok :: rest => (ok, mk_io s.(files) rest)
  end.

Definition fs_update (f : string -> option (list byte)) (p : string) (v : option (list byte))
  : string -> option (list byte) :=
  fun q => if String.eqb q p then v else f q.

(** [fopen(path, "w+")]: create or truncate. *)
Definition fopen_w (path : string) (s : io_state) : bool * io_state :=
  let '(ok, s) := io_step s in
  if ok then (true, mk_io (fs_update s.(files) path (Some [])) s.(faults))
  else (false, s).

(** [fwrite(ptr, size, nitems, fd)] of the bytes [bs]: the item count. *)
Definition fwrite (path : string) (bs : list byte) (nitems : nat) (s : io_state)
  : nat * io_state :=
  let '(ok, s) := io_step s in
  if ok then
    let old := match s.(files) path with Some c => c | None => [] end in
    (nitems, mk_io (fs_update s.(files) path (Some (old ++ bs))) s.(faults))
  else (O, s).

Definition rename (src dst : string) (s : io_state) : Z * io_state :=
  let '(ok, s) := io_step s in
  if ok then
    (0, mk_io (fs_update (fs_update s.(files) dst (s.(files) src)) src None) s.(faults))
  else (-1, s).

(** [unlink(path)]: it can fail like any call; its result is not looked
    at by the caller. *)
Definition unlink (path : string) (s : io_state) : io_state :=
  let '(ok, s) := io_step s in
  if ok then mk_io (fs_update s.(files) path None) s.(faults) else s.

(** Modelled from the spec: [DUMP_SIG] and [DUMP_VERSION] of dump.h (not
    among the sources): the magic 'O','L','E','G' and version "0001". *)
Definition DUMP_SIG : list byte := bytes_of_string "OLEG".
Definition DUMP_VERSION : Z := 1.

Definition digit (d : Z) : byte := byte_of_z (48 + d).

(** [snprintf(version, 5, "%04i", v)] for [0 <= v < 10000]. *)
Definition format_04i (v : Z) : list byte :=
  [digit (v / 1000 mod 10); digit (v / 100 mod 10); digit (v / 10 mod 10); digit (v mod 10)].

(** Modelled from the spec: [struct dump_header] of dump.h (not among the
    sources): 4 bytes of magic, 4 ASCII digits, the record count as a
    native size (8 bytes, little-endian). *)
Definition dump_header_bytes (cnt : Z) : list byte :=
  DUMP_SIG ++ format_04i DUMP_VERSION ++ le_bytes 8 cnt.

Definition dump_header_size : nat := 16.

(** [_ol_write_bucket]: the [fwrite] results are not looked at. *)
Fixpoint _ol_write_bucket (bucket : list ol_bucket) (path : string) (s : io_state)
  : Z * io_state :=
  match bucket with
  | [] => (0, s)
  | b :: next =>
      let '(_, s) := fwrite path b.(b_key) KEY_SIZE s in
      let '(_, s) := fwrite path (le_bytes 8 (Z.of_nat b.(data_size))) 1 s in
      let '(_, s) := fwrite path (firstn b.(data_size) b.(data_ptr)) b.(data_size) s in
      _ol_write_bucket next path s
  end.

(** The serialising loop of [ol_save_db]; [(-1, _)] is a [check] that
    jumps to [error]. *)
Fixpoint save_buckets (db : ol_database) (path : string) (idx : list nat) (s : io_state)
  : Z * io_state :=
  match idx with
  | [] => (0, s)
  | i :: idx' =>
      match nth i db.(hashes) [] with
      | [] => save_buckets db path idx' s
      | item =>
          let '(r, s) := _ol_write_bucket item path s in
          if r =? 0 then save_buckets db path idx' s else (-1, s)
      end
  end.

Definition ol_save_db (db : ol_database) (s : io_state) : Z * io_state :=
  let tmpfile := (db.(dump_file) ++ "-tmp")%string in
  let '(opened, s) := fopen_w tmpfile s in
  if negb opened then (-1, unlink tmpfile s) else
  let '(n, s) := fwrite tmpfile (dump_header_bytes db.(rcrd_cnt)) 1 s in
  if negb (Nat.eqb n 1) then (-1, unlink tmpfile s) else
  let '(r, s) := save_buckets db tmpfile (seq 0 (ol_ht_bucket_max db.(cur_ht_size))) s in
  if negb (r =? 0) then (-1, unlink tmpfile s) else
  (* fflush and fclose: results not looked at *)
  let '(r, s) := rename tmpfile db.(dump_file) s in
  if r =? 0 then (0, s) else (-1, unlink tmpfile s).

Definition is_space (c : byte) : bool :=
  Byte.eqb c " "%byte || Byte.eqb c "009"%byte || Byte.eqb c "010"%byte ||
  Byte.eqb c "011"%byte || Byte.eqb c "012"%byte || Byte.eqb c "013"%byte.

Definition is_digit (c : byte) : bool := (48 <=? byte_z c) && (byte_z c <=? 57).

Fixpoint atoi_digits (acc : Z) (s : list byte) : Z :=
  match s with
  | c :: s' => if is_digit c then atoi_digits (10 * acc + (byte_z c - 48)) s' else acc
  | [] => acc
  end.

(** [atoi(s)]; the digits may run past the 4-byte [version] field into
    the bytes that follow it. *)
Fixpoint atoi (s : list byte) : Z :=
  match s with
  | c :: s' =>
      if is_space c then atoi s'
      else if Byte.eqb c "-"%byte then - atoi_digits 0 s'
      else if Byte.eqb c "+"%byte then atoi_digits 0 s'
      else atoi_digits 0 s
  | [] => 0
  end.

(** [fread] of [n] bytes: those available.  In C an unread part of the
    destination keeps what it held before ([tmp_key] and [value_size] of
    [_ol_store_bin_object] are uninitialised, so a short read makes the
    rest of a load undefined); here it is zero bytes, one of the possible
    outcomes.  The theorems on what a load stores read complete files. *)
Definition fread (n : nat) (rest : list byte) : list byte * list byte :=
  (firstn n rest ++ repeat x00 (n - List.length (firstn n rest)), skipn n rest).

Section Load.
Variable hash_fn : list byte -> Z.

(** The loop of [ol_load_db] over [_ol_store_bin_object]; the record is
    stored by [ol_jar] with the [KEY_SIZE]-byte key buffer as key (the
    call in dump.c omits [klen]).  [_ol_store_bin_object] returns 0. *)
Fixpoint load_records (db : ol_database) (rest : list byte) (n : nat) : Z * ol_database :=
  match n with
  | O => (0, db)
  | S n' =>
      let '(tmp_key, rest) := fread KEY_SIZE rest in
      let '(vs, rest) := fread 8 rest in
      let value_size := Z.to_nat (le_value vs) in
      let '(tmp_value, rest) := fread value_size rest in
      let db := snd (ol_jar hash_fn db tmp_key KEY_SIZE tmp_value value_size) in
      load_records db rest n'
  end.

Definition ol_load_db (db : ol_database) (s : io_state) (filename : string)
  : Z * ol_database :=
  match s.(files) filename with
  | None => (-1, db)
  | Some file =>
      let '(header, rest) := fread dump_header_size file in
      if negb (bytes_eqb (firstn 4 header) DUMP_SIG) then (-1, db) else
      let dump_version := atoi (skipn 4 header) in
      if negb (dump_version =? DUMP_VERSION) then (-1, db) else
      load_records db rest (Z.to_nat (le_value (skipn 8 header)))
  end.

End Load.

(* ------------------------------------------------------------------ *)
(** ** Concrete stores

    An empty index of 1024 slots (8 KiB of slot heads), and keys whose
    MurmurHash3 values under [DEVILS_SEED] share slots:
    - "a" and "pt" share slot 0x1b0 of 1024 and differ in bit 10;
    - "a" and "azy" agree on their low 12 bits (0x9b0);
    - "sn", "fx" and "fxb" share a slot of 1024. *)

Definition str (s : string) : list byte := bytes_of_string s.

Definition store0 : ol_database := ol_open_empty (8 * 1024) 0 "db/oleg.dump".
Definition store0_aol : ol_database := ol_open_empty (8 * 1024) OL_F_APPENDONLY "db/oleg.dump".

Definition put (db : ol_database) (k : string) (v : string) : ol_database :=
  snd (ol_jar ol_hash db (str k) (String.length k) (str v) (String.length v)).

Definition filler_key (n : nat) : list byte :=
  [byte_of_z (65 + Z.of_nat n / 64); byte_of_z (65 + Z.of_nat n mod 64)].

(** [cnt] puts of distinct two-byte keys, none of them "a", "pt", "azy". *)
Definition put_fillers (db : ol_database) (lo cnt : nat) : ol_database :=
  fold_left (fun d n => snd (ol_jar ol_hash d (filler_key n) 2 (str "f") 1)) (seq lo cnt) db.

(* ------------------------------------------------------------------ *)
(** ** Index shape and runs of operations *)

(** [N = 2^p] slot heads, [cur_ht_size] is [8 N] bytes. *)
Definition table_shape (db : ol_database) (p : nat) : Prop :=
  db.(cur_ht_size) = (8 * 2 ^ p)%nat /\ List.length db.(hashes) = (2 ^ p)%nat.

(** Every chain head sits in the slot of its stored hash (implied by the
    invariant "every record in [buckets[i]] hashes to slot [i]"). *)
Definition heads_placed (db : ol_database) : Prop :=
  forall i head rest,
    (i < ol_ht_bucket_max db.(cur_ht_size))%nat ->
    nth i db.(hashes) [] = head :: rest ->
    _ol_calc_idx db.(cur_ht_size) head.(b_hash) = i.

(** The lookup [_ol_jar] starts with: does it find a record for the key? *)
Definition jar_lookup (hash_fn : list byte -> Z) (db : ol_database) (key : list byte)
    (klen : nat) : bool :=
  let _key := _ol_trunc key klen in
  let _klen := strnlen _key KEY_SIZE in
  match _ol_get_bucket db (key_hash hash_fn _key _klen) _key _klen with
  | Some _ => true
  | None => false
  end.

(** The entry points of the library that take the store. *)
Inductive ol_op :=
| OpJar (key : list byte) (klen : nat) (value : list byte) (vsize : nat)
        (ct : list byte) (ctsize : nat)
| OpScoop (key : list byte) (klen : nat)
| OpUnjar (key : list byte) (klen : nat)
| OpContentType (key : list byte) (klen : nat)
| OpSave (s : io_state)
| OpLoad (s : io_state) (filename : string).

Definition run_op (hash_fn : list byte -> Z) (db : ol_database) (op : ol_op) : ol_database :=
  match op with
  | OpJar key klen value vsize ct ctsize => snd (_ol_jar hash_fn db key klen value vsize ct ctsize)
  | OpScoop key klen => snd (ol_scoop hash_fn db key klen)
  | OpUnjar _ _ | OpContentType _ _ | OpSave _ => db
  | OpLoad s filename => snd (ol_load_db hash_fn db s filename)
  end.

Definition run_ops (hash_fn : list byte -> Z) (db : ol_database) (ops : list ol_op)
  : ol_database :=
  fold_left (run_op hash_fn) ops db.

(** The store in which a chain holds two records of different slots after
    a grow, and its head is then deleted: "pt", "a", "azy" share slot
    0x1b0 of 1024; 1022 more keys make the 1025th insertion grow the table
    to 2048 slots, where the chain stays under "pt" (slot 0x5b0) although
    "a" and "azy" belong to slot 0x1b0; "pt" is deleted, then 1024 more
    keys bring [rcrd_cnt] to 2048. *)
Definition stranded_store : ol_database :=
  let db := put (put (put store0 "pt" "x") "a" "h") "azy" "old" in
  let db := put_fillers db 0 1022 in
  let db := snd (ol_scoop ol_hash db (str "pt") 2) in
  put_fillers db 1022 1024.

(** 1024 puts of distinct two-byte keys into the empty 1024-slot index:
    [rcrd_cnt = N], the next put of a new key grows the table. *)
Definition full_store : ol_database := put_fillers store0 0 1024.

(** The grow condition of [_ol_jar]: the key is not found and
    [rcrd_cnt] is non-zero and equal to the slot count [N]. *)
Definition jar_grows (hash_fn : list byte -> Z) (db : ol_database) (key : list byte)
    (klen : nat) : bool :=
  negb (jar_lookup hash_fn db key klen) &&
  ((0 <? db.(rcrd_cnt)) && (db.(rcrd_cnt) =? Z.of_nat (ol_ht_bucket_max db.(cur_ht_size)))).

(** The test of [find_bucket] on one record. *)
Definition matchb (key : list byte) (klen : nat) (b : ol_bucket) : bool :=
  strncmp b.(b_key) key (if (klen <? b.(b_klen))%nat then b.(b_klen) else klen) =? 0.

(** Where the records of the grown table come from. *)
Definition rehash_from (hashes : list (list ol_bucket)) (n to_alloc : nat)
    (tmp : list (list ol_bucket)) : Prop :=
  forall j b, In b (nth j tmp []) ->
    exists i head rest, (i < n)%nat /\ nth i hashes [] = head :: rest /\
      In b (head :: rest) /\ _ol_calc_idx to_alloc head.(b_hash) = j.

(* ------------------------------------------------------------------ *)
(** ** Feature flags, the dump record layout, closing *)












(* ------------------------------------------------------------------ *)
(** * Theorems *)

(** ** Lemmas on the index *)

Lemma list_set_length {A} (l : list A) i x : List.length (list_set l i x) = List.length l.
Proof. revert i; induction l as [|y l IH]; intros [|i]; simpl; auto. Qed.

Lemma bucket_max_shape p : ol_ht_bucket_max (8 * 2 ^ p) = (2 ^ p)%nat.
Proof. unfold ol_ht_bucket_max. rewrite Nat.mul_comm. apply Nat.div_mul. lia. Qed.

Lemma set_bucket_fields db b :
  (snd (_ol_set_bucket db b)).(cur_ht_size) = db.(cur_ht_size) /\
  List.length (snd (_ol_set_bucket db b)).(hashes) = List.length db.(hashes).
Proof.
  unfold _ol_set_bucket. destruct (nth _ _ _); simpl; rewrite list_set_length; auto.
Qed.

Lemma aol_write_fields db c b :
  (ol_aol_write_cmd db c b).(cur_ht_size) = db.(cur_ht_size) /\
  (ol_aol_write_cmd db c b).(hashes) = db.(hashes).
Proof. split; reflexivity. Qed.

Lemma rehash_loop_length to_alloc (h : list (list ol_bucket)) idx tmp :
  List.length (fold_left (rehash_slot h to_alloc) idx tmp) = List.length tmp.
Proof.
  revert tmp; induction idx as [|i idx IH]; intros tmp; simpl; auto.
  rewrite IH. unfold rehash_slot. destruct (nth i h []) as [|b c]; auto.
  unfold _ol_rehash_insert_bucket. destruct (nth _ tmp []); apply list_set_length.
Qed.

Lemma grow_eq db :
  _ol_grow_and_rehash_db db = (0, snd (_ol_grow_and_rehash_db db)).
Proof. reflexivity. Qed.

Lemma grow_fields db :
  (snd (_ol_grow_and_rehash_db db)).(cur_ht_size) = (db.(cur_ht_size) * 2)%nat /\
  List.length (snd (_ol_grow_and_rehash_db db)).(hashes) =
    ol_ht_bucket_max (db.(cur_ht_size) * 2).
Proof.
  unfold _ol_grow_and_rehash_db; simpl. split; auto.
  rewrite rehash_loop_length. apply repeat_length.
Qed.

Section Fields.
Variable hash_fn : list byte -> Z.

Lemma jar_fields db key klen value vsize ct ctsize :
  let db' := snd (_ol_jar hash_fn db key klen value vsize ct ctsize) in
  db'.(cur_ht_size) =
    (if jar_grows hash_fn db key klen then db.(cur_ht_size) * 2 else db.(cur_ht_size))%nat /\
  List.length db'.(hashes) =
    (if jar_grows hash_fn db key klen then ol_ht_bucket_max (db.(cur_ht_size) * 2)
     else List.length db.(hashes)).
Proof.
  unfold _ol_jar, jar_grows, jar_lookup; cbv zeta.
  match goal with |- context [_ol_get_bucket ?a1 ?a2 ?a3 ?a4] =>
    destruct (_ol_get_bucket a1 a2 a3 a4) as [[pos b]|] end; cbn [negb andb].
  - destruct (aol_enabled _); cbn [fst snd]; unfold set_bucket_at; cbn;
      rewrite ?list_set_length; auto.
  - match goal with |- context [_ol_set_bucket _ ?x] => generalize x as nb; intro nb end.
    match goal with |- context [if ?c then _ol_grow_and_rehash_db db else _] => destruct c end.
    + rewrite grow_eq. cbn [fst snd Z.ltb Z.compare].
      destruct (grow_fields db) as [G1 G2].
      destruct (set_bucket_fields (snd (_ol_grow_and_rehash_db db)) nb) as [F1 F2].
      destruct (_ol_set_bucket _ nb) as [r2 db2]; cbn [fst snd] in *.
      destruct (aol_enabled db2); cbn [fst snd ol_aol_write_cmd set_aol_log cur_ht_size hashes]; split; congruence.
    + cbn [fst snd Z.ltb Z.compare].
      destruct (set_bucket_fields db nb) as [F1 F2].
      destruct (_ol_set_bucket _ nb) as [r2 db2]; cbn [fst snd] in *.
      destruct (aol_enabled db2); cbn [fst snd ol_aol_write_cmd set_aol_log cur_ht_size hashes]; split; congruence.
Qed.

Lemma scoop_fields db key klen :
  let db' := snd (ol_scoop hash_fn db key klen) in
  db'.(cur_ht_size) = db.(cur_ht_size) /\ List.length db'.(hashes) = List.length db.(hashes).
Proof.
  unfold ol_scoop; cbv zeta.
  destruct (nth _ _ _) as [|b rest]; cbn [fst snd]; auto.
  destruct (_ =? 0).
  - destruct (aol_enabled _);
      cbn [fst snd ol_aol_write_cmd set_aol_log set_rcrd_cnt set_hashes cur_ht_size hashes];
      rewrite ?list_set_length; auto.
  - destruct (scoop_walk _ _ _);
      cbn [fst snd set_rcrd_cnt set_hashes cur_ht_size hashes]; rewrite ?list_set_length; auto.
Qed.

Lemma jar_shape db p key klen value vsize ct ctsize :
  table_shape db p ->
  table_shape (snd (_ol_jar hash_fn db key klen value vsize ct ctsize))
              (if jar_grows hash_fn db key klen then S p else p).
Proof.
  intros [H1 H2]. destruct (jar_fields db key klen value vsize ct ctsize) as [F1 F2].
  unfold table_shape. rewrite F1, F2.
  destruct (jar_grows hash_fn db key klen); rewrite ?H1, ?H2; split; auto.
  - rewrite Nat.pow_succ_r'. lia.
  - replace (8 * 2 ^ p * 2)%nat with (8 * 2 ^ S p)%nat by (rewrite Nat.pow_succ_r'; lia).
    apply bucket_max_shape.
Qed.

Lemma load_records_shape db rest n p :
  table_shape db p -> exists q, table_shape (snd (load_records hash_fn db rest n)) q.
Proof.
  revert db rest p; induction n as [|n IH]; intros db rest p H.
  - exists p; exact H.
  - cbn [load_records].
    destruct (fread KEY_SIZE rest) as [tmp_key rest1].
    destruct (fread 8 rest1) as [vs rest2].
    destruct (fread _ rest2) as [tmp_value rest3].
    eapply IH. unfold ol_jar. apply jar_shape. exact H.
Qed.

Lemma run_op_shape db p op :
  table_shape db p -> exists q, table_shape (run_op hash_fn db op) q.
Proof.
  intros H. destruct op as [key klen value vsize ct ctsize|key klen|key klen|key klen|s|s filename];
    cbn [run_op].
  - eexists. apply jar_shape. exact H.
  - exists p. destruct H as [H1 H2]. destruct (scoop_fields db key klen) as [F1 F2].
    split; congruence.
  - exists p; exact H.
  - exists p; exact H.
  - exists p; exact H.
  - unfold ol_load_db. destruct (files s filename) as [file|]; [|exists p; exact H].
    destruct (fread dump_header_size file) as [header rest].
    destruct (negb _); [exists p; exact H|].
    destruct (negb _); [exists p; exact H|].
    eapply load_records_shape. exact H.
Qed.

(** Claim C7: a put grows the table exactly when it inserts a new key
    while [rcrd_cnt = N]; a grow doubles [N] ([cur_ht_size] is [8 N]
    bytes), and an update or any other record count leaves [N] as it is.
    Hence from [N = 2^p] slots every run of operations keeps [N] a power
    of two. *)
Theorem grow_exactly_when_full :
  (forall db p key klen value vsize ct ctsize,
     table_shape db p ->
     ol_ht_bucket_max (snd (_ol_jar hash_fn db key klen value vsize ct ctsize)).(cur_ht_size) =
       if negb (jar_lookup hash_fn db key klen) && Z.eqb db.(rcrd_cnt) (Z.of_nat (2 ^ p))
       then (2 * 2 ^ p)%nat else (2 ^ p)%nat) /\
  (forall db p ops, table_shape db p -> exists q, table_shape (run_ops hash_fn db ops) q).
Proof.
  split.
  - intros db p key klen value vsize ct ctsize H.
    destruct (jar_shape db p key klen value vsize ct ctsize H) as [S1 _].
    rewrite S1, bucket_max_shape.
    unfold jar_grows. destruct H as [H1 _]. rewrite H1, bucket_max_shape.
    destruct (jar_lookup hash_fn db key klen); cbn [negb andb]; auto.
    destruct (Z.eqb_spec (rcrd_cnt db) (Z.of_nat (2 ^ p))) as [E|E].
    + assert (Hpos : (0 < 2 ^ p)%nat) by (apply Nat.neq_0_lt_0, Nat.pow_nonzero; lia).
      replace (0 <? rcrd_cnt db) with true by (symmetry; apply Z.ltb_lt; lia).
      cbn [andb]. rewrite Nat.pow_succ_r'. reflexivity.
    + rewrite andb_false_r. reflexivity.
  - intros db p ops; revert db p; induction ops as [|op ops IH]; intros db p H.
    + exists p; exact H.
    + cbn [run_ops fold_left]. destruct (run_op_shape db p op H) as [q Hq].
      exact (IH _ _ Hq).
Qed.
End Fields.

(** A put of a new key into [full_store], 1024 records in 1024 slots: the
    table grows to 2048 slots. *)
Lemma grow_exactly_when_full_witness :
  (table_shape full_store 10 /\ full_store.(rcrd_cnt) = 1024 /\
   jar_lookup ol_hash full_store (str "k") 1 = false) /\
  ol_ht_bucket_max (snd (_ol_jar ol_hash full_store (str "k") 1 (str "v") 1 default_ct 24)).(cur_ht_size) =
    (2 * 2 ^ 10)%nat.
Proof.
  assert (Hs : table_shape full_store 10) by (split; vm_compute; reflexivity).
  assert (Hr : full_store.(rcrd_cnt) = 1024) by (vm_compute; reflexivity).
  assert (Hl : jar_lookup ol_hash full_store (str "k") 1 = false) by (vm_compute; reflexivity).
  split; [split; [exact Hs|split; assumption]|].
  rewrite (proj1 (grow_exactly_when_full ol_hash) full_store 10%nat (str "k") 1%nat (str "v") 1%nat
             default_ct 24%nat Hs), Hl, Hr.
  reflexivity.
Defined.

Lemma nth_list_set_eq {A} (l : list A) i x d :
  (i < List.length l)%nat -> nth i (list_set l i x) d = x.
Proof.
  revert i; induction l as [|y l IH]; intros [|i] H; cbn [list_set nth List.length] in *; try lia; auto with arith.
Qed.

Lemma nth_list_set_neq {A} (l : list A) i j x d :
  i <> j -> nth j (list_set l i x) d = nth j l d.
Proof.
  revert i j; induction l as [|y l IH]; intros [|i] [|j] H; cbn [list_set nth]; auto; try lia.
Qed.

Lemma list_set_middle {A} (c1 c2 : list A) b b' :
  list_set (c1 ++ b :: c2) (List.length c1) b' = c1 ++ b' :: c2.
Proof. induction c1 as [|y c1 IH]; cbn; congruence. Qed.

Lemma strncmp_le a b n m : strncmp a b n = 0 -> (m <= n)%nat -> strncmp a b m = 0.
Proof.
  revert a b m; induction n as [|n IH]; intros a b m H Hm.
  - replace m with O by lia. reflexivity.
  - destruct m as [|m]; [reflexivity|].
    cbn [strncmp] in *.
    destruct (Byte.eqb (hd x00 a) (hd x00 b)); [|exact H].
    destruct (Byte.eqb (hd x00 a) x00); [reflexivity|].
    apply IH; [exact H | lia].
Qed.

Lemma strncpy_strncmp s m n : (n <= m)%nat -> strncmp (strncpy s m) s n = 0.
Proof.
  revert s m; induction n as [|n IH]; intros s m Hm; [reflexivity|].
  destruct m as [|m]; [lia|].
  destruct s as [|c s]; cbn [strncpy strncmp hd tl].
  - reflexivity.
  - destruct (Byte.eqb c x00) eqn:Ec.
    + apply (Byte.byte_dec_bl c x00) in Ec; subst c. reflexivity.
    + cbn [hd tl]. rewrite (@Byte.byte_dec_lb c c eq_refl), Ec. apply IH. lia.
Qed.

Lemma strnlen_le s n : (strnlen s n <= n)%nat.
Proof.
  revert n; induction s as [|c s IH]; intros [|n]; cbn [strnlen]; try lia.
  destruct (Byte.eqb c x00); [lia|]. specialize (IH n); lia.
Qed.

Lemma find_bucket_none key klen pos c :
  find_bucket key klen pos c = None <-> (forall b, In b c -> matchb key klen b = false).
Proof.
  revert pos; induction c as [|b c IH]; intros pos; cbn [find_bucket In].
  - split; [intros _ b []|reflexivity].
  - fold (matchb key klen b). destruct (matchb key klen b) eqn:Eb.
    + split; [discriminate|]. intros H. rewrite (H b (or_introl eq_refl)) in Eb. discriminate.
    + rewrite IH. split.
      * intros H b' [<-|Hin]; auto.
      * intros H b' Hin; auto.
Qed.

Lemma find_bucket_app key klen pos c1 c2 :
  (forall b, In b c1 -> matchb key klen b = false) ->
  find_bucket key klen pos (c1 ++ c2) = find_bucket key klen (pos + List.length c1) c2.
Proof.
  revert pos; induction c1 as [|b c1 IH]; intros pos H; cbn [app List.length].
  - rewrite Nat.add_0_r. reflexivity.
  - cbn [find_bucket]. fold (matchb key klen b). rewrite (H b (or_introl eq_refl)).
    rewrite IH by (intros; apply H; right; assumption). f_equal. lia.
Qed.

Lemma find_bucket_some key klen pos c q b :
  find_bucket key klen pos c = Some (q, b) ->
  exists c1 c2, c = c1 ++ b :: c2 /\ q = (pos + List.length c1)%nat /\
    (forall b', In b' c1 -> matchb key klen b' = false) /\ matchb key klen b = true.
Proof.
  revert pos; induction c as [|b0 c IH]; intros pos H; cbn [find_bucket] in H; [discriminate|].
  fold (matchb key klen b0) in H. destruct (matchb key klen b0) eqn:E0.
  - injection H as <- <-. exists [], c. cbn. repeat split; auto. intros _ [].
  - destruct (IH _ H) as (c1 & c2 & -> & -> & Hn & Hm).
    exists (b0 :: c1), c2. cbn [app List.length]. repeat split; auto; try lia.
    intros b' [<-|Hin]; auto.
Qed.

Lemma find_bucket_last key klen pos c b :
  (forall b', In b' c -> matchb key klen b' = false) -> matchb key klen b = true ->
  find_bucket key klen pos (c ++ [b]) = Some ((pos + List.length c)%nat, b).
Proof.
  intros Hc Hb. rewrite find_bucket_app by exact Hc. cbn [find_bucket].
  fold (matchb key klen b). rewrite Hb. reflexivity.
Qed.

Lemma calc_idx_shape p h :
  _ol_calc_idx (8 * 2 ^ p) h = Z.to_nat (h mod 2 ^ Z.of_nat p).
Proof.
  unfold _ol_calc_idx. rewrite bucket_max_shape, Nat2Z.inj_pow.
  replace (Z.of_nat 2 ^ Z.of_nat p - 1) with (Z.ones (Z.of_nat p))
    by (rewrite Z.ones_equiv; reflexivity).
  rewrite Z.land_ones by lia. reflexivity.
Qed.

Lemma calc_idx_lt p h : (_ol_calc_idx (8 * 2 ^ p) h < 2 ^ p)%nat.
Proof.
  rewrite calc_idx_shape.
  assert (Hp : 0 < 2 ^ Z.of_nat p) by (apply Z.pow_pos_nonneg; lia).
  destruct (Z.mod_pos_bound h _ Hp) as [A B].
  apply Nat2Z.inj_lt. rewrite Z2Nat.id by lia. rewrite Nat2Z.inj_pow. exact B.
Qed.

Lemma calc_idx_coarse p h1 h2 :
  _ol_calc_idx (8 * 2 ^ S p) h1 = _ol_calc_idx (8 * 2 ^ S p) h2 ->
  _ol_calc_idx (8 * 2 ^ p) h1 = _ol_calc_idx (8 * 2 ^ p) h2.
Proof.
  rewrite !calc_idx_shape. intros H.
  assert (Hp : 0 < 2 ^ Z.of_nat (S p)) by (apply Z.pow_pos_nonneg; lia).
  destruct (Z.mod_pos_bound h1 _ Hp), (Z.mod_pos_bound h2 _ Hp).
  apply Z2Nat.inj in H; try lia.
  assert (D : (2 ^ Z.of_nat p | 2 ^ Z.of_nat (S p))).
  { exists 2. rewrite Nat2Z.inj_succ, Z.pow_succ_r by lia. ring. }
  rewrite <- (Z.mod_mod_divide h1 _ _ D), <- (Z.mod_mod_divide h2 _ _ D), H.
  reflexivity.
Qed.

Lemma list_set_oob {A} (l : list A) i x : (List.length l <= i)%nat -> list_set l i x = l.
Proof.
  revert i; induction l as [|y l IH]; intros [|i] H; cbn [list_set List.length] in *;
    try lia; auto.
  f_equal. apply IH. lia.
Qed.

Lemma nth_list_set_same {A} (l : list A) i x d :
  nth i (list_set l i x) d = x \/ nth i (list_set l i x) d = nth i l d.
Proof.
  destruct (Nat.lt_ge_cases i (List.length l)).
  - left. apply nth_list_set_eq. assumption.
  - right. rewrite list_set_oob by assumption. reflexivity.
Qed.

Lemma rehash_loop_from hashes n to_alloc idx tmp :
  (forall i, In i idx -> (i < n)%nat) ->
  rehash_from hashes n to_alloc tmp ->
  rehash_from hashes n to_alloc (fold_left (rehash_slot hashes to_alloc) idx tmp).
Proof.
  revert tmp; induction idx as [|i idx IH]; intros tmp Hidx Htmp; cbn [fold_left]; auto.
  apply IH; [intros; apply Hidx; right; assumption|].
  unfold rehash_slot. destruct (nth i hashes []) as [|head rest] eqn:Ei; [exact Htmp|].
  unfold _ol_rehash_insert_bucket.
  set (ni := _ol_calc_idx to_alloc head.(b_hash)).
  assert (Hnew : forall X, (forall b, In b X -> In b (nth ni tmp []) \/ In b (head :: rest)) ->
            rehash_from hashes n to_alloc (list_set tmp ni X)).
  { intros X HX j b Hb. destruct (Nat.eq_dec ni j) as [<-|Hne].
    - destruct (nth_list_set_same tmp ni X []) as [E|E]; rewrite E in Hb.
      + destruct (HX b Hb) as [Ho|Hc]; [exact (Htmp _ _ Ho)|].
        exists i, head, rest. repeat split; auto. apply Hidx. left. reflexivity.
      + exact (Htmp _ _ Hb).
    - rewrite nth_list_set_neq in Hb by exact Hne. exact (Htmp _ _ Hb). }
  destruct (nth ni tmp []) as [|c cs] eqn:En; apply Hnew; intros b Hb; auto.
  apply in_app_or in Hb. tauto.
Qed.

Lemma grow_from db :
  rehash_from db.(hashes) (ol_ht_bucket_max db.(cur_ht_size)) (db.(cur_ht_size) * 2)
              (snd (_ol_grow_and_rehash_db db)).(hashes).
Proof.
  unfold _ol_grow_and_rehash_db. cbn [snd set_cur_ht_size set_hashes hashes].
  apply rehash_loop_from.
  - intros i Hi. apply in_seq in Hi. lia.
  - intros j b Hb. rewrite nth_repeat in Hb. destruct Hb.
Qed.

Lemma grow_shape db p : table_shape db p -> table_shape (snd (_ol_grow_and_rehash_db db)) (S p).
Proof.
  intros [H1 H2]. destruct (grow_fields db) as [G1 G2]. split.
  - rewrite G1, H1, Nat.pow_succ_r'. lia.
  - rewrite G2, H1. replace (8 * 2 ^ p * 2)%nat with (8 * 2 ^ S p)%nat
      by (rewrite Nat.pow_succ_r'; lia). apply bucket_max_shape.
Qed.

Lemma grow_no_match db p h key klen :
  table_shape db p -> heads_placed db ->
  (forall b, In b (nth (_ol_calc_idx db.(cur_ht_size) h) db.(hashes) []) -> matchb key klen b = false) ->
  let db1 := snd (_ol_grow_and_rehash_db db) in
  forall b, In b (nth (_ol_calc_idx db1.(cur_ht_size) h) db1.(hashes) []) -> matchb key klen b = false.
Proof.
  intros [H1 H2] Hp Hn db1 b Hb.
  destruct (grow_from db _ _ Hb) as (i & head & rest & Hi & Ei & Hin & Hj).
  subst db1. destruct (grow_fields db) as [G1 _]. rewrite G1 in Hj.
  rewrite H1 in Hj, Hi, Hn.
  replace (8 * 2 ^ p * 2)%nat with (8 * 2 ^ S p)%nat in Hj by (rewrite Nat.pow_succ_r'; lia).
  apply calc_idx_coarse in Hj.
  assert (Hh := Hp i head rest). rewrite H1 in Hh.
  specialize (Hh Hi Ei). rewrite Hh in Hj. subst i.
  apply Hn. rewrite Ei. exact Hin.
Qed.

Lemma set_bucket_then_found db q h key klen nb :
  table_shape db q ->
  (forall b, In b (nth (_ol_calc_idx db.(cur_ht_size) h) db.(hashes) []) -> matchb key klen b = false) ->
  nb.(b_hash) = h -> matchb key klen nb = true ->
  exists pos, _ol_get_bucket (snd (_ol_set_bucket db nb)) h key klen = Some (pos, nb).
Proof.
  intros [H1 H2] Hn Hh Hm. subst h.
  assert (Hlt : (_ol_calc_idx db.(cur_ht_size) nb.(b_hash) < List.length db.(hashes))%nat)
    by (rewrite H1, H2; apply calc_idx_lt).
  assert (E : (snd (_ol_set_bucket db nb)).(cur_ht_size) = db.(cur_ht_size) /\
              (snd (_ol_set_bucket db nb)).(hashes) =
                list_set db.(hashes) (_ol_calc_idx db.(cur_ht_size) nb.(b_hash))
                  (nth (_ol_calc_idx db.(cur_ht_size) nb.(b_hash)) db.(hashes) [] ++ [nb])).
  { unfold _ol_set_bucket. destruct (nth _ _ _) eqn:En; split; reflexivity. }
  destruct E as [E1 E2].
  unfold _ol_get_bucket. rewrite E1, E2, nth_list_set_eq by exact Hlt.
  eexists. apply find_bucket_last; assumption.
Qed.

Lemma get_bucket_aol db c b h key klen :
  _ol_get_bucket (ol_aol_write_cmd db c b) h key klen = _ol_get_bucket db h key klen.
Proof. reflexivity. Qed.

Lemma jar_then_found hash_fn db p key klen value vsize ct ctsize :
  table_shape db p -> heads_placed db ->
  ol_content_type hash_fn (snd (_ol_jar hash_fn db key klen value vsize ct ctsize)) key klen
    = Some (memcpy ct ctsize ++ [x00]) \/
  ol_content_type hash_fn (snd (_ol_jar hash_fn db key klen value vsize ct ctsize)) key klen
    = Some (strncpy ct ctsize ++ [x00]).
Proof.
  intros Hs Hp.
  unfold ol_content_type, _ol_jar. cbv zeta.
  assert (Hkl := strnlen_le (_ol_trunc key klen) KEY_SIZE).
  remember (_ol_trunc key klen) as k0 eqn:Ek0; clear Ek0.
  remember (strnlen k0 KEY_SIZE) as kl eqn:Ekl; clear Ekl.
  remember (key_hash hash_fn k0 kl) as h eqn:Eh; clear Eh.
  destruct (_ol_get_bucket db h k0 kl) as [[pos b]|] eqn:G.
  - left. unfold _ol_get_bucket in G.
    destruct (find_bucket_some _ _ _ _ _ _ G) as (c1 & c2 & Ec & -> & Hn & Hm).
    destruct Hs as [H1 H2].
    assert (Hlt : (_ol_calc_idx db.(cur_ht_size) h < List.length db.(hashes))%nat)
      by (rewrite H1, H2; apply calc_idx_lt).
    match goal with |- context [if aol_enabled ?d then _ else _] => destruct (aol_enabled d) end;
      cbn [snd]; rewrite ?get_bucket_aol; unfold _ol_get_bucket, set_bucket_at;
      cbn [set_hashes cur_ht_size hashes];
      rewrite nth_list_set_eq by exact Hlt; rewrite Ec, Nat.add_0_l, list_set_middle;
      rewrite find_bucket_app by exact Hn; cbn [find_bucket b_klen b_key content_type];
      rewrite Nat.ltb_irrefl;
      replace (strncmp (b_key b) k0 kl =? 0) with true;
      try reflexivity;
      symmetry; apply Z.eqb_eq; unfold matchb in Hm; apply Z.eqb_eq in Hm;
      (eapply strncmp_le; [exact Hm|]; destruct (Nat.ltb_spec kl (b_klen b)); lia).
  - right.
    match goal with |- context [_ol_set_bucket _ ?x] => remember x as nb eqn:Enb end.
    assert (Hnh : nb.(b_hash) = h) by (subst nb; reflexivity).
    assert (Hnm : matchb k0 kl nb = true).
    { subst nb. unfold matchb. cbn [b_key b_klen]. rewrite Nat.ltb_irrefl.
      apply Z.eqb_eq. apply strncpy_strncmp. exact Hkl. }
    assert (Hct : nb.(content_type) = strncpy ct ctsize ++ [x00]) by (subst nb; reflexivity).
    clear Enb.
    unfold _ol_get_bucket in G. rewrite find_bucket_none in G.
    assert (Hdb1 : exists q db1, table_shape db1 q /\
              (forall b, In b (nth (_ol_calc_idx db1.(cur_ht_size) h) db1.(hashes) []) ->
                 matchb k0 kl b = false) /\
              (if (0 <? rcrd_cnt db) && (rcrd_cnt db =? Z.of_nat (ol_ht_bucket_max (cur_ht_size db)))
               then _ol_grow_and_rehash_db db else (0, db)) = (0, db1)).
    { destruct ((0 <? rcrd_cnt db) && _).
      - exists (S p), (snd (_ol_grow_and_rehash_db db)). split; [apply grow_shape; exact Hs|].
        split; [apply grow_no_match with (p := p); assumption|]. apply grow_eq.
      - exists p, db. auto. }
    destruct Hdb1 as (q & db1 & Hs1 & Hn1 & ->). cbn [Z.ltb Z.compare].
    destruct (set_bucket_then_found db1 q h k0 kl nb Hs1 Hn1 Hnh Hnm) as [pos Hf].
    destruct (_ol_set_bucket db1 nb) as [r2 db2]. cbn [snd] in Hf.
    destruct (aol_enabled db2); cbn [snd]; rewrite ?get_bucket_aol, Hf, Hct; reflexivity.
Qed.

(** Claim C5 (corrected): no default is substituted for an empty
    content-type.  When the index is in shape ([N = 2^p] slots, each chain
    head in the slot of its hash), a put with [ctsize = 0], of a new key or
    an update, makes content_type of that key return the empty string (the
    NUL alone); only [ol_jar], which takes no content-type, passes the
    default "application/octet-stream" of length 24. *)
Theorem jar_ct_empty_stays_empty hash_fn db p key klen value vsize ct :
  table_shape db p -> heads_placed db ->
  ol_content_type hash_fn (snd (ol_jar_ct hash_fn db key klen value vsize ct 0)) key klen
    = Some [x00] /\
  ol_content_type hash_fn (snd (ol_jar hash_fn db key klen value vsize)) key klen
    = Some (default_ct ++ [x00]).
Proof.
  intros Hs Hp. split.
  - unfold ol_jar_ct.
    destruct (jar_then_found hash_fn db p key klen value vsize ct 0 Hs Hp) as [E|E];
      rewrite E; reflexivity.
  - unfold ol_jar.
    destruct (jar_then_found hash_fn db p key klen value vsize default_ct 24 Hs Hp) as [E|E];
      rewrite E; reflexivity.
Qed.

(** A put with [ctsize = 0] into the empty 1024-slot index. *)
Lemma jar_ct_empty_stays_empty_witness :
  (table_shape store0 10 /\ heads_placed store0) /\
  ol_content_type ol_hash (snd (ol_jar_ct ol_hash store0 (str "k") 1 (str "v") 1 [] 0))
    (str "k") 1 = Some [x00].
Proof.
  assert (Hs : table_shape store0 10) by (split; reflexivity).
  assert (Hp : heads_placed store0).
  { intros i head rest Hi E. cbn [hashes store0 ol_open_empty] in E.
    rewrite nth_repeat in E. discriminate. }
  split; [split; assumption|].
  exact (proj1 (jar_ct_empty_stays_empty ol_hash store0 10 (str "k") 1 (str "v") 1 [] Hs Hp)).
Defined.

Lemma load_records_ret hash_fn db rest n : fst (load_records hash_fn db rest n) = 0.
Proof.
  revert db rest; induction n as [|n IH]; intros db rest; [reflexivity|].
  cbn [load_records].
  destruct (fread KEY_SIZE rest) as [tmp_key rest1].
  destruct (fread 8 rest1) as [vs rest2].
  destruct (fread _ rest2) as [tmp_value rest3].
  apply IH.
Qed.

Lemma fread_full n file :
  (n <= List.length file)%nat -> fread n file = (firstn n file, skipn n file).
Proof.
  intros H. unfold fread. rewrite firstn_length_le by exact H.
  rewrite Nat.sub_diag. cbn [repeat]. rewrite app_nil_r. reflexivity.
Qed.

Lemma digit_not_sign c :
  is_digit c = true ->
  is_space c = false /\ Byte.eqb c "-"%byte = false /\ Byte.eqb c "+"%byte = false.
Proof.
  destruct c; intros H; vm_compute in H; try discriminate H; vm_compute; auto.
Qed.

Lemma atoi_digits_stop acc ds c rest :
  forallb is_digit ds = true -> is_digit c = false ->
  atoi_digits acc (ds ++ c :: rest) = atoi_digits acc ds.
Proof.
  revert acc; induction ds as [|d ds IH]; intros acc Hd Hc; cbn [app atoi_digits].
  - rewrite Hc. reflexivity.
  - cbn [forallb] in Hd. apply andb_prop in Hd as [Hd1 Hd2]. rewrite Hd1. apply IH; assumption.
Qed.

Lemma atoi_digits_then_stop d ds c rest :
  forallb is_digit (d :: ds) = true -> is_digit c = false ->
  atoi ((d :: ds) ++ c :: rest) = atoi_digits 0 (d :: ds).
Proof.
  intros Hd Hc. cbn [forallb] in Hd. apply andb_prop in Hd as [Hd1 Hd2].
  destruct (digit_not_sign d Hd1) as (S1 & S2 & S3).
  cbn [app atoi]. rewrite S1, S2, S3. cbv match.
  rewrite (app_comm_cons ds (c :: rest) d). apply atoi_digits_stop; [|exact Hc].
  cbn [forallb]. rewrite Hd1, Hd2. reflexivity.
Qed.

Lemma version_field_split file :
  (9 <= List.length file)%nat ->
  firstn 12 (skipn 4 file) = firstn 4 (skipn 4 file) ++ nth 8 file x00 :: firstn 7 (skipn 9 file).
Proof.
  intros H.
  do 9 (destruct file as [|? file]; [cbn [List.length] in H; lia|]).
  reflexivity.
Qed.

(** Claim C9 (corrected): for a dump file of at least the 16 header
    bytes, load has no distinct error results: it returns 0 or -1.  It
    returns -1 and leaves the index unchanged on a magic mismatch, and
    likewise on a version mismatch: four ASCII version digits, followed by
    a byte that is not a digit, spelling a number other than
    [DUMP_VERSION].  Both failures give the same result. *)
Theorem load_rejects_magic_and_version hash_fn db s filename file :
  s.(files) filename = Some file ->
  (dump_header_size <= List.length file)%nat ->
  (fst (ol_load_db hash_fn db s filename) = 0 \/ fst (ol_load_db hash_fn db s filename) = -1) /\
  (bytes_eqb (firstn 4 file) DUMP_SIG = false ->
     ol_load_db hash_fn db s filename = (-1, db)) /\
  (bytes_eqb (firstn 4 file) DUMP_SIG = true ->
     forallb is_digit (firstn 4 (skipn 4 file)) = true ->
     is_digit (nth 8 file x00) = false ->
     atoi_digits 0 (firstn 4 (skipn 4 file)) <> DUMP_VERSION ->
     ol_load_db hash_fn db s filename = (-1, db)).
Proof.
  intros Hf Hl. unfold ol_load_db. rewrite Hf, (fread_full _ _ Hl).
  unfold dump_header_size in *.
  rewrite firstn_firstn, skipn_firstn_comm. cbn [Nat.min Nat.sub].
  split; [|split].
  - destruct (negb (bytes_eqb _ _)); [right; reflexivity|].
    destruct (negb (_ =? _)); [right; reflexivity|].
    left. apply load_records_ret.
  - intros E. rewrite E. reflexivity.
  - intros E Hd Hc V. rewrite E. cbn [negb].
    rewrite (version_field_split file ltac:(lia)).
    assert (L : List.length (firstn 4 (skipn 4 file)) = 4%nat)
      by (rewrite firstn_length_le; [reflexivity|rewrite length_skipn; lia]).
    destruct (firstn 4 (skipn 4 file)) as [|d ds]; [discriminate L|].
    rewrite (atoi_digits_then_stop d ds _ _ Hd Hc).
    destruct (Z.eqb_spec (atoi_digits 0 (d :: ds)) DUMP_VERSION); [contradiction|].
    reflexivity.
Qed.

(** A header of version 0003 whose record count starts with 'A'. *)
Lemma load_rejects_magic_and_version_witness :
  ((mk_io (fun _ => Some (str "OLEG0003AAAAAAAA")) []).(files) "f" = Some (str "OLEG0003AAAAAAAA") /\
   (dump_header_size <= List.length (str "OLEG0003AAAAAAAA"))%nat) /\
  ol_load_db ol_hash store0 (mk_io (fun _ => Some (str "OLEG0003AAAAAAAA")) []) "f" = (-1, store0).
Proof.
  assert (Hl : (dump_header_size <= List.length (str "OLEG0003AAAAAAAA"))%nat) by (vm_compute; lia).
  split; [split; [reflexivity|exact Hl]|].
  apply (proj2 (proj2 (load_rejects_magic_and_version ol_hash store0
           (mk_io (fun _ => Some (str "OLEG0003AAAAAAAA")) []) "f" (str "OLEG0003AAAAAAAA")
           eq_refl Hl))).
  - vm_compute. reflexivity.
  - vm_compute. reflexivity.
  - vm_compute. reflexivity.
  - vm_compute. discriminate.
Defined.

(** ** The rest of the library: files, closing, runs *)
























Section Jar.
Variable hash_fn : list byte -> Z.




End Jar.







Section Jar2.
Variable hash_fn : list byte -> Z.


End Jar2.



Section Jar3.
Variable hash_fn : list byte -> Z.


End Jar3.







Section Jar4.
Variable hash_fn : list byte -> Z.


End Jar4.

Section Get.
Variable hash_fn : list byte -> Z.







End Get.





Section Runs.
Variable hash_fn : list byte -> Z.





End Runs.




Section Scoop.
Variable hash_fn : list byte -> Z.



End Scoop.

Section JarLog.
Variable hash_fn : list byte -> Z.



End JarLog.

(** ** Properties of the whole library *)




Section Extras.
Variable hash_fn : list byte -> Z.



End Extras.

(** Concrete inputs for the properties with hypotheses. *)
















(** ** Behaviour at concrete inputs *)

(** Claim C1 (failing input): grow does not preserve every binding.  After
    put("a","1") and put("pt","2") on an empty 1024-slot index, "pt" is in
    the chain of "a"; grow moves the chain as a whole to the slot of its
    head "a", while get("pt") looks in slot 0x5b0 of 2048 and finds
    nothing. *)
Lemma grow_loses_chained_record :
  let S := put (put store0 "a" "1") "pt" "2" in
  ol_unjar_ds ol_hash S (str "pt") 2 = Some (str "2", 1%nat) /\
  ol_unjar_ds ol_hash (snd (_ol_grow_and_rehash_db S)) (str "pt") 2 = None /\
  ol_unjar_ds ol_hash (snd (_ol_grow_and_rehash_db S)) (str "a") 1 = Some (str "1", 1%nat).
Proof. vm_compute. repeat split. Qed.

(** Claim C2 (failing input): deleting the last record of a chain, when it
    is not the head, returns success but leaves it linked: after
    put("sn"), put("fxb") (one chain) and delete("fxb"), the chain still
    reaches "fxb", a get still finds it, and [rcrd_cnt] is 1 while two
    records are reachable. *)
Lemma scoop_last_in_chain_stays_linked :
  let S := put (put store0 "sn" "1") "fxb" "2" in
  let '(r, S') := ol_scoop ol_hash S (str "fxb") 3 in
  r = 0 /\
  existsb (fun b => bytes_eqb b.(b_key) (strncpy (str "fxb") KEY_SIZE)) (reachable S') = true /\
  ol_unjar ol_hash S' (str "fxb") 3 = Some (str "2") /\
  S'.(rcrd_cnt) = 1 /\ List.length (reachable S') = 2%nat.
Proof. vm_compute. repeat split. Qed.

(** Claim C3 (failing input): with APPEND_ONLY enabled and state AOKAY, a
    successful delete of a record that is not the chain head writes no
    command, while deleting a chain head writes SCOOP. *)
Lemma scoop_in_chain_writes_no_aol :
  let S := snd (ol_jar ol_hash (snd (ol_jar ol_hash store0_aol (str "sn") 2 (str "1") 1))
                       (str "fxb") 3 (str "2") 1) in
  List.length S.(aol_log) = 2%nat /\
  fst (ol_scoop ol_hash S (str "fxb") 3) = 0 /\
  List.length (snd (ol_scoop ol_hash S (str "fxb") 3)).(aol_log) = 2%nat /\
  fst (ol_scoop ol_hash S (str "sn") 2) = 0 /\
  List.length (snd (ol_scoop ol_hash S (str "sn") 2)).(aol_log) = 3%nat.
Proof. vm_compute. repeat split. Qed.

(** Claim C4 (failing input): delete matches a stored key by a strict
    prefix of it.  With only "fxb" stored, get("fx") finds nothing (the
    comparison runs over max(3, 2) bytes), but delete("fx") compares over
    the probe's 2 bytes only, succeeds and removes "fxb". *)
Lemma scoop_matches_prefix :
  let S := put store0 "fxb" "2" in
  ol_unjar ol_hash S (str "fx") 2 = None /\
  fst (ol_scoop ol_hash S (str "fx") 2) = 0 /\
  ol_unjar ol_hash (snd (ol_scoop ol_hash S (str "fx") 2)) (str "fxb") 3 = None.
Proof. vm_compute. repeat split. Qed.

(** Claim C5 (counterexample): a put with [ctsize = 0] keeps the empty
    content-type; content_type returns the empty string, not the default. *)
Lemma jar_ct_empty_not_defaulted :
  ol_content_type ol_hash (snd (ol_jar_ct ol_hash store0 (str "k") 1 (str "v") 1 [] 0))
    (str "k") 1 = Some [x00] /\
  Some [x00] <> Some (default_ct ++ [x00]).
Proof. vm_compute. split; [reflexivity | discriminate]. Qed.

(** Claim C6 (failing input): in [stranded_store], "azy" is present but not
    found (its chain sits in another slot); put("azy","new") inserts it
    anew, which grows the table, and the chain of "a" with the old "azy"
    lands in the same slot before the new record: get("azy") returns the
    old value. *)
Lemma put_then_get_returns_stale_value :
  ol_unjar_ds ol_hash stranded_store (str "azy") 3 = None /\
  stranded_store.(rcrd_cnt) = 2048 /\
  fst (ol_jar ol_hash stranded_store (str "azy") 3 (str "new") 3) = 0 /\
  ol_unjar_ds ol_hash (put stranded_store "azy" "new") (str "azy") 3 = Some (str "old", 3%nat).
Proof. vm_compute. repeat split. Qed.

(** Claim C8 (failing input): the [fwrite]s of the records are not
    checked.  Saving a one-record index where the write of the record's
    key fails returns 0 and installs a dump without the key bytes over the
    live dump "OLD". *)
Lemma save_ignores_failed_record_write :
  let S := put store0 "x" "hello" in
  let io := mk_io (fun p => if String.eqb p "db/oleg.dump" then Some (str "OLD") else None)
                  [true; true; false] in
  fst (ol_save_db S io) = 0 /\
  (snd (ol_save_db S io)).(files) "db/oleg.dump" =
    Some (dump_header_bytes 1 ++ le_bytes 8 5 ++ str "hello") /\
  (snd (ol_save_db S io)).(files) "db/oleg.dump-tmp" = None.
Proof. vm_compute. repeat split. Qed.

(** Claim C9 (counterexample): a magic mismatch and a version mismatch
    return the same result, -1. *)
Lemma load_magic_version_same_result :
  fst (ol_load_db ol_hash store0 (mk_io (fun _ => Some (str "OLEX0001AAAAAAAA")) []) "f") = -1 /\
  fst (ol_load_db ol_hash store0 (mk_io (fun _ => Some (str "OLEG0002AAAAAAAA")) []) "f") = -1.
Proof. vm_compute. split; reflexivity. Qed.

(** Claim C10 (failing input): with "sn" then "fxb" in one chain, delete
    of "fx" followed by a NUL (klen 3) finds nothing, while delete of the
    2-byte prefix "fx" removes "fxb": the walk past the chain head
    compares with the caller's key and klen. *)
Lemma scoop_nul_key_differs_from_prefix :
  let S := put (put store0 "sn" "1") "fxb" "2" in
  fst (ol_scoop ol_hash S (str "fx" ++ [x00]) 3) = 2 /\
  fst (ol_scoop ol_hash S (str "fx") 2) = 0.
Proof. vm_compute. split; reflexivity. Qed.
